(** * simplefog helpers: a shallow embedding of [js/helpers.js]

    The file embeds the pure helpers ([webToHex], [hexToWeb], [hexObjsToArr])
    and the GPU pixel sampler ([readPixel]) of the module, and proves the
    properties of their specification.

    Conventions.
    - A JavaScript number is an IEEE 754 binary64 value: [number] is Rocq's
      primitive [float], and [*] on numbers is [PrimFloat.mul].
    - A JavaScript string is modelled by [string]; the two markers the colour
      helpers look for (the character # and the two characters 0x) are ASCII.
    - An abrupt completion (a thrown exception) is explicit: functions that can
      throw return a [Completion].
    - The rendering engine is an external collaborator.  It is a parameter of
      [readPixel]: a record of operations over an abstract engine state, each
      of which either returns or throws.  Every call made to the engine is
      recorded, with its answer, in a journal. *)

From Stdlib Require Import Bool Ascii String List ZArith Lia Floats.
Import ListNotations.

Set Implicit Arguments.

(* ===================================================================== *)
(** ** Completions *)

Inductive Exception : Type :=
| TypeError                      (* raised by the language itself *)
| HostError (code : nat).        (* raised inside the rendering engine *)

Inductive Completion (A : Type) : Type :=
| Normal (a : A)
| Throw (e : Exception).

Arguments Normal {A} a.
Arguments Throw {A} e.

(* ===================================================================== *)
(** ** Strings: [String.prototype.replace] with a string pattern *)

Module JsString.

Local Open Scope string_scope.

(** [startsWith pat s]: [pat] occurs in [s] at index 0. *)
Fixpoint startsWith (pat s : string) : bool :=
  match pat, s with
  | EmptyString, _ => true
  | String _ _, EmptyString => false
  | String p pat', String c s' => Ascii.eqb p c && startsWith pat' s'
  end.

(** [drop n s]: [s] without its first [n] characters. *)
Fixpoint drop (n : nat) (s : string) : string :=
  match n, s with
  | O, _ => s
  | S _, EmptyString => EmptyString
  | S n', String _ s' => drop n' s'
  end.

(** [includes pat s]: [pat] occurs somewhere in [s]. *)
Fixpoint includes (pat s : string) : bool :=
  startsWith pat s
  || match s with
     | EmptyString => false
     | String _ s' => includes pat s'
     end.

(** [replace pat rep s]: the first occurrence of [pat] in [s], scanning from
    the left, is replaced by [rep]; [s] is returned unchanged when [pat] does
    not occur.  Neither replacement used by the helpers contains the
    character $, so the replacement text is used literally. *)
Fixpoint replace (pat rep s : string) : string :=
  if startsWith pat s then rep ++ drop (String.length pat) s
  else match s with
       | EmptyString => EmptyString
       | String c s' => String c (replace pat rep s')
       end.

End JsString.

(* ===================================================================== *)
(** ** Colour helpers *)

Section Colours.

Local Open Scope string_scope.

(** [export function webToHex(n) { return n.replace('#', '0x'); }] *)
Definition webToHex (n : string) : string :=
  JsString.replace "#" "0x" n.

(** [export function hexToWeb(n) { return (`${n}`).replace('0x', '#'); }]
    The template literal converts [n] to a string; on a string it is the
    identity. *)
Definition hexToWeb (n : string) : string :=
  JsString.replace "0x" "#" n.

End Colours.

(* ===================================================================== *)
(** ** Numbers and points *)

Definition number : Type := float.

Module Point.
Record t : Type := mk { x : number; y : number }.
End Point.

(** The two numbers a point contributes to the flat array. *)
Definition coordinates (p : Point.t) : list number := [Point.x p; Point.y p].

(** [Array.prototype.push] of one element. *)
Definition push {A : Type} (a : list A) (v : A) : list A := a ++ [v].

(** [[
export function hexObjsToArr(hex) {
  const a = [];
  hex.forEach((point) => { a.push(point.x); a.push(point.y); });
  a.push(hex[0].x);
  a.push(hex[0].y);
  return a;
}
]]
    On the empty array [hex[0]] is [undefined] and reading its [x] throws a
    [TypeError] (after the loop, which has run zero times). *)
Definition hexObjsToArr (hex : list Point.t) : Completion (list number) :=
  let a := [] in
  let a := fold_left (fun a point => push (push a (Point.x point)) (Point.y point)) hex a in
  match nth_error hex 0 with
  | None => Throw TypeError
  | Some first =>
      let a := push a (Point.x first) in
      let a := push a (Point.y first) in
      Normal a
  end.

(* ===================================================================== *)
(** ** Typed arrays *)

(** A [Uint8Array] is a fixed-length sequence of integers; its length never
    changes after construction. *)
Definition Uint8Array : Type := list Z.

(** [new Uint8Array(n)]: [n] elements, all zero. *)
Definition new_Uint8Array (n : nat) : Uint8Array := repeat 0%Z n.

(** An element store [a[i] = v]: the value is reduced modulo 256; a store
    outside the array is ignored. *)
Fixpoint Uint8Array_set (a : Uint8Array) (i : nat) (v : Z) : Uint8Array :=
  match a, i with
  | [], _ => []
  | _ :: a', O => (v mod 256)%Z :: a'
  | b :: a', S i' => b :: Uint8Array_set a' i' v
  end.

(** A sequence of element stores, performed in order on the same array. *)
Definition Uint8Array_stores (a : Uint8Array) (stores : list (nat * Z)) : Uint8Array :=
  fold_left (fun a s => Uint8Array_set a (fst s) (snd s)) stores a.

(* ===================================================================== *)
(** ** The rendering engine, as [readPixel] sees it *)

(** [renderTexture.baseTexture.resolution]: a render texture refers to a base
    texture (or to [null] once it has been disposed of), which carries the
    device-pixel ratio.  [uid] stands for the identity of the object; [width]
    and [height] are its dimensions in logical pixels, which [readPixel] never
    consults. *)
Record BaseTexture : Type := { resolution : number }.

Record RenderTexture : Type := {
  uid : nat;
  width : number;
  height : number;
  baseTexture : option BaseTexture
}.

(** The first argument of [readPixel]: an instance of [PIXI.RenderTexture],
    or any other value (a display object, identified by [id]). *)
Inductive Target : Type :=
| TextureTarget (rt : RenderTexture)
| DisplayObject (id : nat).

(** [target instanceof PIXI.RenderTexture] *)
Definition instanceof_RenderTexture (target : Target) : bool :=
  match target with
  | TextureTarget _ => true
  | DisplayObject _ => false
  end.

(** The WebGL enumerations for pixel formats and component types. *)
Inductive PixelFormat : Type := ALPHA | RGB | RGBA.
Inductive PixelType : Type := UNSIGNED_BYTE | UNSIGNED_SHORT_5_6_5 | FLOAT.

(** The calls [readPixel] can make to the engine, with their arguments. *)
Inductive Call : Type :=
| GenerateTexture (target : Target)
| Bind (rt : RenderTexture)
| ReadPixels (x y width height : number) (format : PixelFormat)
             (type : PixelType) (buf : Uint8Array)
| Destroy (rt : RenderTexture) (deep : bool).

(** How a call ended. *)
Inductive Answer : Type :=
| Returned
| ReturnedTexture (rt : option RenderTexture)
| ReturnedPixels (stores : list (nat * Z))
| Raised (e : Exception).

Record Event : Type := { ev_call : Call; ev_answer : Answer }.

(** The engine: [renderer.generateTexture], [renderer.renderTexture.bind],
    [renderer.gl.readPixels] and [renderTexture.destroy], over an engine state
    of type [H].  [generateTexture] answers a texture or a falsy value
    ([None]); [gl_readPixels] answers the element stores it performs on the
    buffer it was handed. *)
Record Renderer (H : Type) : Type := {
  generateTexture : Target -> H -> Completion (option RenderTexture) * H;
  renderTexture_bind : RenderTexture -> H -> Completion unit * H;
  gl_readPixels : number -> number -> number -> number -> PixelFormat ->
                  PixelType -> Uint8Array -> H -> Completion (list (nat * Z)) * H;
  texture_destroy : RenderTexture -> bool -> H -> Completion unit * H
}.

(* ===================================================================== *)
(** ** Computations: engine state, exceptions and the journal of calls *)

(** A computation runs from an engine state and yields a completion, the
    engine state it leaves and the calls it made, oldest first.  A thrown
    exception keeps the state and the journal reached so far. *)
Definition M (H A : Type) : Type := H -> Completion A * H * list Event.

Definition ret {H A : Type} (a : A) : M H A :=
  fun h => (Normal a, h, []).

Definition throw {H A : Type} (e : Exception) : M H A :=
  fun h => (Throw e, h, []).

Definition bind {H A B : Type} (m : M H A) (k : A -> M H B) : M H B :=
  fun h =>
    match m h with
    | (Normal a, h1, t1) =>
        match k a h1 with
        | (r, h2, t2) => (r, h2, t1 ++ t2)
        end
    | (Throw e, h1, t1) => (Throw e, h1, t1)
    end.

Declare Scope js_scope.
Delimit Scope js_scope with js.
Notation "x <- m ;; k" := (bind m (fun x => k))
  (at level 61, m at next level, right associativity) : js_scope.
Notation "' pat <- m ;; k" := (bind m (fun x => match x with pat => k end))
  (at level 61, pat pattern, m at next level, right associativity) : js_scope.
Notation "m ;; k" := (bind m (fun _ => k))
  (at level 61, right associativity) : js_scope.

(** One call to the engine, recorded with its answer. *)
Definition perform {H A : Type} (c : Call) (describe : A -> Answer)
    (op : H -> Completion A * H) : M H A :=
  fun h =>
    match op h with
    | (Normal a, h') => (Normal a, h', [{| ev_call := c; ev_answer := describe a |}])
    | (Throw e, h') => (Throw e, h', [{| ev_call := c; ev_answer := Raised e |}])
    end.

(* ===================================================================== *)
(** ** [readPixel] *)

(** [ToNumber] of a variable that holds a number or is still [undefined]. *)
Definition ToNumber (v : option number) : number :=
  match v with
  | Some n => n
  | None => nan
  end.

(** A parameter with default value [d]: an omitted argument is [None]. *)
Definition with_default (d : number) (arg : option number) : number :=
  match arg with
  | Some n => n
  | None => d
  end.

Section Sampler.

Variable H : Type.
Variable renderer : Renderer H.

Local Open Scope js_scope.
Local Open Scope float_scope.

(** Lines 89-97: the texture to sample and the [generated] flag.
[[
  let renderTexture;
  let generated = false;
  if (target instanceof PIXI.RenderTexture) { renderTexture = target; }
  else { renderTexture = renderer.generateTexture(target); generated = true; }
]] *)
Definition acquire (target : Target) : M H (option RenderTexture * bool) :=
  let generated := false in
  match target with
  | TextureTarget rt => ret (Some rt, generated)
  | DisplayObject _ =>
      renderTexture <- perform (GenerateTexture target) ReturnedTexture
                         (generateTexture renderer target) ;;
      let generated := true in
      ret (renderTexture, generated)
  end.

(** [[
export function readPixel(target, x = 0, y = 0) {
  const { renderer } = canvas.app;
  let resolution;
  (lines 89-97, see acquire)
  if (renderTexture) {
    resolution = renderTexture.baseTexture.resolution;
    renderer.renderTexture.bind(renderTexture);
  }
  const pixel = new Uint8Array(4);
  const { gl } = renderer;
  gl.readPixels(x * resolution, y * resolution, 1, 1, gl.RGBA, gl.UNSIGNED_BYTE, pixel);
  if (generated) { renderTexture.destroy(true); }
  return pixel;
}
]]
    Reading [resolution] of a [null] base texture and calling [destroy] on a
    falsy [renderTexture] throw a [TypeError]. *)
Definition readPixel (target : Target) (x y : option number) : M H Uint8Array :=
  let x := with_default 0 x in
  let y := with_default 0 y in
  '(renderTexture, generated) <- acquire target ;;
  resolution <-
    match renderTexture with
    | Some rt =>
        match baseTexture rt with
        | Some base =>
            let resolution := Some (resolution base) in
            perform (Bind rt) (fun _ => Returned) (renderTexture_bind renderer rt) ;;
            ret resolution
        | None => throw TypeError
        end
    | None => ret None
    end ;;
  let pixel := new_Uint8Array 4 in
  stores <- perform
              (ReadPixels (x * ToNumber resolution) (y * ToNumber resolution)
                          1 1 RGBA UNSIGNED_BYTE pixel)
              ReturnedPixels
              (gl_readPixels renderer (x * ToNumber resolution)
                             (y * ToNumber resolution) 1 1 RGBA UNSIGNED_BYTE pixel) ;;
  let pixel := Uint8Array_stores pixel stores in
  (if generated : bool then
     match renderTexture with
     | Some rt => perform (Destroy rt true) (fun _ => Returned)
                    (texture_destroy renderer rt true)
     | None => throw TypeError
     end
   else ret tt) ;;
  ret pixel.

End Sampler.

Arguments acquire {H} renderer target.
Arguments readPixel {H} renderer target x y.

(* ===================================================================== *)
(** ** Observing a run *)

Definition outcome {H A : Type} (run : Completion A * H * list Event) : Completion A :=
  fst (fst run).

Definition journal {H A : Type} (run : Completion A * H * list Event) : list Event :=
  snd run.


Definition calls (evs : list Event) : list Call := map ev_call evs.

Definition is_generate (c : Call) : bool :=
  match c with GenerateTexture _ => true | _ => false end.

Definition is_bind (c : Call) : bool :=
  match c with Bind _ => true | _ => false end.

Definition is_read (c : Call) : bool :=
  match c with ReadPixels _ _ _ _ _ _ _ => true | _ => false end.

Definition is_destroy (c : Call) : bool :=
  match c with Destroy _ _ => true | _ => false end.

(** The texture a call to [readPixel] samples: the value of the variable
    [renderTexture] once lines 89-97 have run. *)
Definition sampled {H : Type} (renderer : Renderer H) (target : Target) (h : H)
    : option RenderTexture :=
  match outcome (acquire renderer target h) with
  | Normal (renderTexture, _) => renderTexture
  | Throw _ => None
  end.


(* ===================================================================== *)
(** ** Resources held across calls

    What the engine interface makes persistent: the textures handed out by
    [generateTexture] and not yet deeply destroyed, and the current read
    target set by the last successful [bind].  Textures are named by [uid]. *)

Record Resources : Type := {
  live : list nat;
  bound : option nat
}.

Fixpoint remove_first (n : nat) (l : list nat) : list nat :=
  match l with
  | [] => []
  | m :: l' => if Nat.eqb n m then l' else m :: remove_first n l'
  end.

Definition account (r : Resources) (e : Event) : Resources :=
  match ev_call e, ev_answer e with
  | GenerateTexture _, ReturnedTexture (Some rt) =>
      {| live := uid rt :: live r; bound := bound r |}
  | Bind rt, Returned =>
      {| live := live r; bound := Some (uid rt) |}
  | Destroy rt true, Returned =>
      {| live := remove_first (uid rt) (live r); bound := bound r |}
  | _, _ => r
  end.

Definition effect (evs : list Event) (r : Resources) : Resources :=
  fold_left account evs r.

(* ===================================================================== *)
(** ** Sample engines

    Engines used to run [readPixel] on concrete inputs.  Their state counts
    the textures generated so far. *)

(** The [n]-th texture the sample engines generate: 16 by 16, at resolution
    [res]. *)
Definition fresh_texture (n : nat) (res : number) : RenderTexture :=
  {| uid := n; width := 16%float; height := 16%float;
     baseTexture := Some {| resolution := res |} |}.

(** Every call succeeds; the pixel read performs the element stores
    [stores]. *)
Definition steady_engine (res : number) (stores : list (nat * Z)) : Renderer nat := {|
  generateTexture := fun _ n => (Normal (Some (fresh_texture n res)), S n);
  renderTexture_bind := fun _ n => (Normal tt, n);
  gl_readPixels := fun _ _ _ _ _ _ _ n => (Normal stores, n);
  texture_destroy := fun _ _ n => (Normal tt, n)
|}.


(** The pixel read throws; everything else succeeds. *)
Definition read_fails_engine (res : number) : Renderer nat := {|
  generateTexture := generateTexture (steady_engine res []);
  renderTexture_bind := renderTexture_bind (steady_engine res []);
  gl_readPixels := fun _ _ _ _ _ _ _ n => (Throw (HostError 2), n);
  texture_destroy := texture_destroy (steady_engine res [])
|}.

(** A texture the caller already holds: 16 by 16, at resolution [res]. *)
Definition held_texture (res : number) : RenderTexture :=
  {| uid := 100; width := 16%float; height := 16%float;
     baseTexture := Some {| resolution := res |} |}.

(* ===================================================================== *)
(** ** Percentages and greyscale colours *)

(** The number denoted by an integer literal [z], for [0 <= z < 2^53]. *)
Definition Number_of_Z (z : Z) : number := PrimFloat.of_uint63 (Uint63.of_Z z).

(** [Math.ceil]: NaN, the infinities, the zeros and the integral values are
    returned unchanged; a value strictly between -1 and 0 gives -0; any other
    value gives the least integral number above it.  A finite number is
    [m * 2^e] with the sign [s]; when [e] is negative its integral part is
    [m / 2^(-e)], which is below [2^53]. *)
Definition Math_ceil (f : number) : number :=
  match Prim2SF f with
  | S754_finite s m e =>
      if (0 <=? e)%Z then f
      else
        let d := (2 ^ (- e))%Z in
        let q := (Z.pos m / d)%Z in
        let r := (Z.pos m mod d)%Z in
        if s then PrimFloat.opp (Number_of_Z q)
        else Number_of_Z (if (r =? 0)%Z then q else (q + 1)%Z)
  | _ => f
  end.

(** [[
export function hexToPercent(n) {
  return Math.ceil(n / 0xFFFFFF * 100);
}
]] *)
Definition hexToPercent (n : number) : number :=
  Math_ceil (n / 0xFFFFFF * 100)%float.

(** The digit of [Number.prototype.toString(16)] for a value below 16. *)
Definition hex_digit (d : Z) : ascii :=
  match String.get (Z.to_nat d) "0123456789abcdef" with
  | Some c => c
  | None => "?"%char
  end.

(** The base-16 digits of a positive integer, most significant first. *)
Fixpoint hex_integer (fuel : nat) (z : Z) (acc : string) : string :=
  match fuel with
  | O => acc
  | S fuel' =>
      if (z =? 0)%Z then acc
      else hex_integer fuel' (z / 16)%Z (String (hex_digit (z mod 16)%Z) acc)
  end.

Definition Z_toString16 (z : Z) : string :=
  if (z =? 0)%Z then "0"%string
  else hex_integer (S (Z.to_nat (Z.log2 z))) z EmptyString.

(** The base-16 digits of the fraction [r / d], for [0 <= r < d]. *)
Fixpoint hex_fraction (fuel : nat) (r d : Z) : string :=
  match fuel with
  | O => EmptyString
  | S fuel' =>
      if (r =? 0)%Z then EmptyString
      else String (hex_digit (16 * r / d)%Z)
                  (hex_fraction fuel' ((16 * r) mod d)%Z d)
  end.

(** [Number.prototype.toString(16)].  On integral values (all that
    [percentToHex] produces) these are the base-16 digits with a minus sign
    for negative values; on other finite values the exact base-16 expansion,
    which is finite, is used. *)
Definition Number_toString16 (f : number) : string :=
  match Prim2SF f with
  | S754_nan => "NaN"
  | S754_infinity false => "Infinity"
  | S754_infinity true => "-Infinity"
  | S754_zero _ => "0"
  | S754_finite s m e =>
      ((if s then "-" else "") ++
       (if (0 <=? e)%Z then Z_toString16 (Z.pos m * 2 ^ e)
        else
          let d := (2 ^ (- e))%Z in
          Z_toString16 (Z.pos m / d) ++
          (if (Z.pos m mod d =? 0)%Z then ""
           else "." ++ hex_fraction (Z.to_nat (- e)) (Z.pos m mod d) d)))%string
  end.

(** [[
export function percentToHex(n) {
  let c = Math.ceil(n * 2.55).toString(16);
  if (c.length === 1) c = `0${c}`;
  c = `0x${c}${c}${c}`;
  return c;
}
]]
    The literal [2.55] denotes the binary64 number [0x1.4666666666666p+1]. *)
Definition percentToHex (n : number) : string :=
  let c := Number_toString16 (Math_ceil (n * 0x1.4666666666666p+1)%float) in
  let c := if (String.length c =? 1)%nat then ("0" ++ c)%string else c in
  ("0x" ++ c ++ c ++ c)%string.

(** The value of a base-16 digit, in either case. *)
Definition hex_digit_value (c : ascii) : option Z :=
  let n := Z.of_nat (nat_of_ascii c) in
  if ((48 <=? n) && (n <=? 57))%Z%bool then Some (n - 48)%Z
  else if ((97 <=? n) && (n <=? 102))%Z%bool then Some (n - 87)%Z
  else if ((65 <=? n) && (n <=? 70))%Z%bool then Some (n - 55)%Z
  else None.

Fixpoint hex_digits_value (s : string) (acc : Z) : option Z :=
  match s with
  | EmptyString => Some acc
  | String c s' =>
      match hex_digit_value c with
      | Some d => hex_digits_value s' (16 * acc + d)%Z
      | None => None
      end
  end.

(** The integer a string denotes when it is a base-16 literal: [0x] followed
    by at least one base-16 digit.  This is the number the string converts to
    when it is used as an operand of [/], as long as it is below [2^53]. *)
Definition hexLiteral_value (s : string) : option Z :=
  match s with
  | String "0" (String "x" (String c rest)) => hex_digits_value (String c rest) 0
  | _ => None
  end.

(** The byte [percentToHex] writes for each channel at [p] percent, as an
    exact integer: the ceiling of [255 * p / 100]. *)
Definition grey_channel (p : nat) : Z := ((255 * Z.of_nat p + 99) / 100)%Z.

(** A byte as two base-16 digits. *)
Definition two_hex_digits (c : Z) : string :=
  String (hex_digit (c / 16)%Z) (String (hex_digit (c mod 16)%Z) EmptyString).

(** The colours from [lo] to [lo + 2^k - 1], as machine integers, all
    satisfy [test]. *)
Fixpoint all_in_block (test : Uint63.int -> bool) (k : nat) (lo : Uint63.int) : bool :=
  match k with
  | O => test lo
  | S k' =>
      all_in_block test k' lo &&
      all_in_block test k'
        (Uint63.add lo (Uint63.lsl (Uint63.of_Z 1) (Uint63.of_Z (Z.of_nat k'))))
  end.

(** The number [hexToPercent] rounds up, for the colour [n], is positive and
    at most 100. *)
Definition percent_in_range (n : Uint63.int) : bool :=
  Uint63.eqb n (Uint63.of_Z 0) ||
  (let f := (PrimFloat.of_uint63 n / 0xFFFFFF * 100)%float in
   PrimFloat.ltb 0 f && PrimFloat.leb f 100).

(* ===================================================================== *)
(** ** Hotkeys *)

Module Hotkeys.

(** An element of the page, with its class names; a jQuery object is the list
    of the elements it matched. *)
Record Element : Type := { classes : list string }.

Definition jQuery : Type := list Element.

(** [$(value)]: one element, or nothing when the value is [undefined]. *)
Definition wrap (value : option Element) : jQuery :=
  match value with
  | Some el => [el]
  | None => []
  end.

(** [.hasClass(c)]: some matched element has the class [c]. *)
Definition hasClass (set : jQuery) (c : string) : bool :=
  existsb (fun el => existsb (String.eqb c) (classes el)) set.

(** A [keydown] event: [path] is absent ([None]) where the browser does not
    provide [event.path]. *)
Record KeyboardEvent : Type := {
  key : string;
  ctrlKey : bool;
  path : option (list Element)
}.

(** What the handlers read from the page: the setting [enableHotkeys],
    [ui.controls.activeControl], and what [$('input[name=brushOpacity]').val()]
    returns ([None] for [undefined]). *)
Record Page : Type := {
  enableHotkeys : bool;
  activeControl : string;
  brushOpacity : option string
}.

(** What the handlers do to the page. *)
Inductive Action : Type :=
| Click (selector : string)
| ClickAfter (delay : Z) (selector : string)
| SetVal (selector : string) (value : Z)
| Submit (selector : string).

Local Open Scope string_scope.

(** [function areHotkeysEnabled() { return canvas.simplefog.getSetting('enableHotkeys'); }] *)
Definition areHotkeysEnabled (page : Page) : bool := enableHotkeys page.

(** [function toggleControls(event) { return event.key === 's' && event.ctrlKey; }] *)
Definition toggleControls (event : KeyboardEvent) : bool :=
  String.eqb (key event) "s" && ctrlKey event.

(** The loop of [isOnCanvas]:
[[
  for(let allowedClass of allowedClasses) {
    if(!$path.hasClass(allowedClass)) { return false; }
  }
  return true;
]] *)
Fixpoint for_allowedClasses (path0 : jQuery) (allowedClasses : list string) : bool :=
  match allowedClasses with
  | [] => true
  | allowedClass :: rest =>
      if negb (hasClass path0 allowedClass) then false
      else for_allowedClasses path0 rest
  end.

(** [[
function isOnCanvas(event) {
  let $path = $(event.path[0]);
  let allowedClasses = ['vtt', 'game'];
  (the loop)
}
]]
    Indexing an absent [event.path] throws a [TypeError]; the first element of
    an empty path is [undefined]. *)
Definition isOnCanvas (event : KeyboardEvent) : Completion bool :=
  match path event with
  | None => Throw TypeError
  | Some elements =>
      let path0 := wrap (nth_error elements 0) in
      let allowedClasses := ["vtt"; "game"] in
      Normal (for_allowedClasses path0 allowedClasses)
  end.

(** [function getActiveControlName() { return ui.controls.activeControl; }] *)
Definition getActiveControlName (page : Page) : string := activeControl page.

(** [function isActiveControl() { return getActiveControlName() === 'simplefog'; }] *)
Definition isActiveControl (page : Page) : bool :=
  String.eqb (getActiveControlName page) "simplefog".

(** [function getNewControlName() { return isActiveControl() ? 'token' : 'simplefog'; }] *)
Definition getNewControlName (page : Page) : string :=
  if isActiveControl page then "token" else "simplefog".

(** [function getNewToolName(controlName) { return controlName === 'simplefog' ? 'grid' : 'select'; }] *)
Definition getNewToolName (controlName : string) : string :=
  if String.eqb controlName "simplefog" then "grid" else "select".

(** The listener registered by [addSimplefogControlToggleListener]:
[[
  (event) => {
    if(!areHotkeysEnabled() || !toggleControls(event) || !isOnCanvas(event)) { return; }
    let controlName = getNewControlName();
    let toolName = getNewToolName(controlName);
    $('li.scene-control[data-control=' + controlName + ']')?.click();
    setTimeout(function(){$('ol.sub-controls.active li.control-tool[data-tool=' + toolName + ']')?.click();}, 500);
  }
]]
    The operands of [||] are evaluated from the left, and only as far as
    needed. *)
Definition controlToggleListener (page : Page) (event : KeyboardEvent)
    : Completion (list Action) :=
  if negb (areHotkeysEnabled page) then Normal []
  else if negb (toggleControls event) then Normal []
  else
    match isOnCanvas event with
    | Throw e => Throw e
    | Normal false => Normal []
    | Normal true =>
        let controlName := getNewControlName page in
        let toolName := getNewToolName controlName in
        Normal [ Click ("li.scene-control[data-control=" ++ controlName ++ "]");
                 ClickAfter 500
                   ("ol.sub-controls.active li.control-tool[data-tool=" ++ toolName ++ "]") ]
    end.

(** [function toggleOpacity(event) { return event.key === 't'; }] *)
Definition toggleOpacity (event : KeyboardEvent) : bool :=
  String.eqb (key event) "t".

(** [[
function toggleSliderAndSubmitForm() {
  let $slider = $('input[name=brushOpacity]');
  let brushOpacity = $slider.val();
  $slider.val(brushOpacity === "100" ? 0 : 100);
  $('form#simplefog-brush-controls-form').submit();
}
]] *)
Definition toggleSliderAndSubmitForm (page : Page) : list Action :=
  let slider := "input[name=brushOpacity]" in
  let value :=
    match brushOpacity page with
    | Some v => if String.eqb v "100" then 0%Z else 100%Z
    | None => 100%Z
    end in
  [ SetVal slider value; Submit "form#simplefog-brush-controls-form" ].

(** The listener registered by [addSimplefogOpacityToggleListener]:
[[
  (event) => {
    if(!areHotkeysEnabled() || !toggleOpacity(event) || !isOnCanvas(event) || !isActiveControl()) { return; }
    toggleSliderAndSubmitForm();
  }
]] *)
Definition opacityToggleListener (page : Page) (event : KeyboardEvent)
    : Completion (list Action) :=
  if negb (areHotkeysEnabled page) then Normal []
  else if negb (toggleOpacity event) then Normal []
  else
    match isOnCanvas event with
    | Throw e => Throw e
    | Normal false => Normal []
    | Normal true =>
        if negb (isActiveControl page) then Normal []
        else Normal (toggleSliderAndSubmitForm page)
    end.

End Hotkeys.

(* ===================================================================== *)
(** ** More sample inputs *)


(** A render texture that has been disposed of: its base texture is gone. *)
Definition disposed_texture : RenderTexture :=
  {| uid := 100; width := 16%float; height := 16%float; baseTexture := None |}.

(** [generateTexture] answers a texture without base texture. *)
Definition disposed_engine : Renderer nat := {|
  generateTexture := fun _ n => (Normal (Some disposed_texture), S n);
  renderTexture_bind := renderTexture_bind (steady_engine 1%float []);
  gl_readPixels := gl_readPixels (steady_engine 1%float []);
  texture_destroy := texture_destroy (steady_engine 1%float [])
|}.

(** A canvas element, and a Ctrl+S and a T key press on it. *)
Definition canvas_element : Hotkeys.Element :=
  {| Hotkeys.classes := ["game"; "system-dnd5e"; "vtt"]%string |}.

Definition ctrl_s_on_canvas : Hotkeys.KeyboardEvent :=
  {| Hotkeys.key := "s"; Hotkeys.ctrlKey := true;
     Hotkeys.path := Some [canvas_element] |}.


(** A Ctrl+S key press in a browser without [event.path]. *)
Definition ctrl_s_without_path : Hotkeys.KeyboardEvent :=
  {| Hotkeys.key := "s"; Hotkeys.ctrlKey := true; Hotkeys.path := None |}.

(** A Ctrl+S key press whose path is the empty array. *)
Definition ctrl_s_empty_path : Hotkeys.KeyboardEvent :=
  {| Hotkeys.key := "s"; Hotkeys.ctrlKey := true; Hotkeys.path := Some [] |}.

(** The page with hotkeys enabled, the given control active and the slider
    at the given value. *)
Definition page_with (control : string) (opacity : string) : Hotkeys.Page :=
  {| Hotkeys.enableHotkeys := true; Hotkeys.activeControl := control;
     Hotkeys.brushOpacity := Some opacity |}.

(* ===================================================================== *)
(** ** Vocabulary of the statements and proof automation *)

(** An element of a [Uint8Array] as the language guarantees it. *)
Definition is_byte (b : Z) : Prop := (0 <= b <= 255)%Z.

(** Running [readPixel]: case analysis on the answers of the engine. *)

Ltac engine_cases :=
  repeat (simpl in *;
    match goal with
    | |- context [match ?t with TextureTarget _ => _ | DisplayObject _ => _ end] =>
        destruct t
    | |- context [generateTexture ?r ?t ?h] =>
        let E := fresh "Egen" in
        destruct (generateTexture r t h) as [[[?rt|]|?e] ?h] eqn:E
    | |- context [match baseTexture ?rt with Some _ => _ | None => _ end] =>
        let E := fresh "Ebase" in
        destruct (baseTexture rt) as [?base|] eqn:E
    | |- context [renderTexture_bind ?r ?rt ?h] =>
        let E := fresh "Ebind" in
        destruct (renderTexture_bind r rt h) as [[[]|?e] ?h] eqn:E
    | |- context [gl_readPixels ?r ?x ?y ?w ?hh ?f ?t ?b ?h] =>
        let E := fresh "Eread" in
        destruct (gl_readPixels r x y w hh f t b h) as [[?stores|?e] ?h] eqn:E
    | |- context [texture_destroy ?r ?rt ?d ?h] =>
        let E := fresh "Edestroy" in
        destruct (texture_destroy r rt d h) as [[[]|?e] ?h] eqn:E
    end).

Ltac run_readPixel :=
  unfold sampled, readPixel, acquire, outcome, journal, bind, perform, ret, throw;
  engine_cases.


(* ===================================================================== *)
(** * Properties *)

(** ** Typed arrays keep their length and their range *)

Lemma Uint8Array_set_length (a : Uint8Array) (i : nat) (v : Z) :
  length (Uint8Array_set a i v) = length a.
Proof.
  revert i; induction a as [|b a IH]; intros [|i]; simpl; auto.
Qed.

Lemma Uint8Array_set_bytes (a : Uint8Array) (i : nat) (v : Z) :
  Forall is_byte a -> Forall is_byte (Uint8Array_set a i v).
Proof.
  intros Ha; revert i; induction Ha as [|b a Hb Ha IH]; intros [|i]; simpl.
  - constructor.
  - constructor.
  - constructor; [|assumption].
    unfold is_byte. pose proof (Z.mod_pos_bound v 256). lia.
  - constructor; auto.
Qed.

Lemma Uint8Array_stores_length (stores : list (nat * Z)) (a : Uint8Array) :
  length (Uint8Array_stores a stores) = length a.
Proof.
  unfold Uint8Array_stores.
  revert a; induction stores as [|s stores IH]; intros a; simpl.
  - reflexivity.
  - rewrite IH. apply Uint8Array_set_length.
Qed.

Lemma Uint8Array_stores_bytes (stores : list (nat * Z)) (a : Uint8Array) :
  Forall is_byte a -> Forall is_byte (Uint8Array_stores a stores).
Proof.
  unfold Uint8Array_stores.
  revert a; induction stores as [|s stores IH]; intros a Ha; simpl.
  - assumption.
  - apply IH. now apply Uint8Array_set_bytes.
Qed.

Lemma new_Uint8Array_bytes (n : nat) : Forall is_byte (new_Uint8Array n).
Proof.
  unfold new_Uint8Array. induction n; simpl; constructor; auto.
  unfold is_byte; lia.
Qed.

(** ** The value returned *)

(** C5. Whenever [readPixel] returns, the value returned is a buffer of
    exactly four elements, each of them a byte in the range 0..255. *)
Theorem readPixel_returns_four_bytes
    (H : Type) (renderer : Renderer H) (target : Target) (x y : option number)
    (h : H) (pixel : Uint8Array) :
  outcome (readPixel renderer target x y h) = Normal pixel ->
  length pixel = 4 /\ Forall is_byte pixel.
Proof.
  run_readPixel; intros Hret; inversion Hret; subst; clear Hret;
    (split;
     [ rewrite Uint8Array_stores_length; reflexivity
     | apply Uint8Array_stores_bytes, new_Uint8Array_bytes ]).
Qed.

Lemma readPixel_returns_four_bytes_witness :
  length [255; 44; 0; 255]%Z = 4 /\ Forall is_byte [255; 44; 0; 255]%Z.
Proof.
  exact (@readPixel_returns_four_bytes nat
           (steady_engine 2%float [(0, 255%Z); (1, 300%Z); (5, 7%Z); (3, (-1)%Z)])
           (DisplayObject 0) (Some 5%float) (Some 10%float) 0
           [255; 44; 0; 255]%Z eq_refl).
Defined.

(** ** The shape of a run that returns *)


(** X16. Conversely, the call returns as soon as the texture it samples has a
    base texture and the engine calls it makes return; the value returned is
    the fresh buffer after the element stores of the pixel read. *)
Lemma readPixel_returns
    (H : Type) (renderer : Renderer H) (target : Target) (x y : option number)
    (h h0 h1 h2 : H) (rt : RenderTexture) (base : BaseTexture)
    (generated : bool) (evs : list Event) (stores : list (nat * Z)) :
  acquire renderer target h = (Normal (Some rt, generated), h0, evs) ->
  baseTexture rt = Some base ->
  renderTexture_bind renderer rt h0 = (Normal tt, h1) ->
  gl_readPixels renderer (with_default 0 x * resolution base)%float
                (with_default 0 y * resolution base)%float 1%float 1%float
                RGBA UNSIGNED_BYTE (new_Uint8Array 4) h1 = (Normal stores, h2) ->
  (generated = true ->
   exists h3, texture_destroy renderer rt true h2 = (Normal tt, h3)) ->
  outcome (readPixel renderer target x y h)
  = Normal (Uint8Array_stores (new_Uint8Array 4) stores).
Proof.
  intros Hacquire Hbase Hbind Hread Hdestroy.
  unfold readPixel, outcome, bind, perform, ret, throw.
  rewrite Hacquire, Hbase. simpl. rewrite Hbind. simpl. rewrite Hread. simpl.
  destruct generated; simpl; [|reflexivity].
  destruct (Hdestroy eq_refl) as [h3 Hd]. now rewrite Hd.
Qed.

(** ** Textures generated for the call *)


(** The scenario of the specification: a plain drawable, resolution 2,
    logical coordinates (5, 10), an engine whose calls all succeed. *)
Example readPixel_drawable_scenario :
  let texture := fresh_texture 0 2%float in
  readPixel (steady_engine 2%float [(0, 9%Z)]) (DisplayObject 7)
            (Some 5%float) (Some 10%float) 0 =
    (Normal [9; 0; 0; 0]%Z, 1,
     [ {| ev_call := GenerateTexture (DisplayObject 7);
          ev_answer := ReturnedTexture (Some texture) |};
       {| ev_call := Bind texture; ev_answer := Returned |};
       {| ev_call := ReadPixels 10%float 20%float 1%float 1%float
                                RGBA UNSIGNED_BYTE [0; 0; 0; 0]%Z;
          ev_answer := ReturnedPixels [(0, 9%Z)] |};
       {| ev_call := Destroy texture true; ev_answer := Returned |} ]).
Proof. reflexivity. Qed.



(** C4. When the target is already a render texture, the [generated] flag is
    false after the texture has been chosen (and is never assigned again), no
    engine call is made to choose it, and the call as a whole, however it
    ends, makes no [generateTexture] call and no [destroy] call. *)
Theorem readPixel_texture_target_owns_nothing
    (H : Type) (renderer : Renderer H) (rt : RenderTexture) (x y : option number)
    (h : H) :
  acquire renderer (TextureTarget rt) h = (Normal (Some rt, false), h, []) /\
  filter (fun c => is_generate c || is_destroy c)
         (calls (journal (readPixel renderer (TextureTarget rt) x y h))) = [].
Proof.
  split; [reflexivity|].
  unfold readPixel, acquire, outcome, journal, bind, perform, ret, throw.
  simpl.
  destruct (baseTexture rt) as [base|]; simpl; [|reflexivity].
  destruct (renderTexture_bind renderer rt h) as [[[]|e] h0]; simpl; [|reflexivity].
  destruct (gl_readPixels renderer _ _ _ _ _ _ _ h0) as [[stores|e] h1];
    reflexivity.
Qed.




(** The same happens when the pixel read throws. *)
Example readPixel_leaks_texture_when_read_throws :
  let run := readPixel (read_fails_engine 2%float) (DisplayObject 7)
                       (Some 5%float) (Some 10%float) 0 in
  outcome run = Throw (HostError 2) /\
  filter is_generate (calls (journal run)) = [GenerateTexture (DisplayObject 7)] /\
  filter is_destroy (calls (journal run)) = [] /\
  live (effect (journal run) {| live := []; bound := None |}) = [0].
Proof.
  repeat split.
Qed.

(** ** The pixel read *)



Example readPixel_scaling_scenario :
  filter is_read
    (calls (journal (readPixel (steady_engine 2%float []) (DisplayObject 7)
                               (Some 3%float) (Some 4%float) 0))) =
  [ReadPixels 6%float 8%float 1%float 1%float RGBA UNSIGNED_BYTE [0; 0; 0; 0]%Z].
Proof. reflexivity. Qed.




(** ** What a call leaves behind *)




Example readPixel_binding_not_restored :
  effect (journal (readPixel (steady_engine 1%float []) (TextureTarget (held_texture 1%float))
                             None None 0))
         {| live := [3; 4]; bound := Some 4 |}
  = {| live := [3; 4]; bound := Some 100 |}.
Proof. reflexivity. Qed.

(** ** Failures and unchecked coordinates *)



(** Coordinates outside a 16 by 16 texture reach the engine scaled and
    otherwise untouched, and what the engine stores is what is returned. *)
Example readPixel_out_of_range_scenario :
  let run := readPixel (steady_engine 2%float [(3, 77%Z)])
                       (TextureTarget (held_texture 2%float))
                       (Some 100%float) (Some (-3)%float) 0 in
  outcome run = Normal [0; 0; 0; 77]%Z /\
  filter is_read (calls (journal run)) =
    [ReadPixels 200%float (-6)%float 1%float 1%float RGBA UNSIGNED_BYTE [0; 0; 0; 0]%Z].
Proof. split; reflexivity. Qed.

(* ===================================================================== *)
(** ** Colour strings *)

Section ColourRoundTrip.

Local Open Scope string_scope.

Local Arguments Ascii.eqb : simpl never.

(** Replacing the first # by 0x does not make the result start with 0x
    unless the string started with # or with 0x already. *)
Lemma webToHex_head (c : ascii) (s : string) :
  JsString.includes "#" s = true ->
  JsString.startsWith "0x" (String c (webToHex s)) =
  JsString.startsWith "0x" (String c s).
Proof.
  destruct s as [|d s]; [discriminate|]. intros _.
  unfold webToHex. simpl.
  destruct (Ascii.eqb "#" d) eqn:Hd; simpl.
  - apply Ascii.eqb_eq in Hd. subst d. reflexivity.
  - reflexivity.
Qed.

(** C9. On every string that contains the character # and does not contain
    the two characters 0x, [hexToWeb] undoes [webToHex]. *)
Theorem hexToWeb_webToHex (s : string) :
  JsString.includes "#" s = true ->
  JsString.includes "0x" s = false ->
  hexToWeb (webToHex s) = s.
Proof.
  induction s as [|c s IH]; [discriminate|].
  intros Hhash Hno.
  destruct (Ascii.eqb "#" c) eqn:Hc.
  - apply Ascii.eqb_eq in Hc. subst c. reflexivity.
  - assert (Hhash' : JsString.includes "#" s = true).
    { revert Hhash. simpl. rewrite Hc. simpl. destruct s; auto. }
    assert (Hno' : JsString.includes "0x" s = false).
    { change (JsString.includes "0x" (String c s))
        with (JsString.startsWith "0x" (String c s) || JsString.includes "0x" s)
        in Hno.
      now apply Bool.orb_false_elim in Hno. }
    assert (Hhead : JsString.startsWith "0x" (String c s) = false).
    { change (JsString.includes "0x" (String c s))
        with (JsString.startsWith "0x" (String c s) || JsString.includes "0x" s)
        in Hno.
      now apply Bool.orb_false_elim in Hno. }
    assert (Hstep : webToHex (String c s) = String c (webToHex s)).
    { unfold webToHex. simpl. now rewrite Hc. }
    rewrite Hstep. unfold hexToWeb.
    change (JsString.replace "0x" "#" (String c (webToHex s)))
      with (if JsString.startsWith "0x" (String c (webToHex s))
            then "#" ++ JsString.drop 2 (String c (webToHex s))
            else String c (JsString.replace "0x" "#" (webToHex s))).
    rewrite (webToHex_head c s Hhash'), Hhead.
    f_equal. apply IH; assumption.
Qed.

Lemma hexToWeb_webToHex_witness : hexToWeb (webToHex "#FF0000") = "#FF0000".
Proof.
  exact (hexToWeb_webToHex "#FF0000" eq_refl eq_refl).
Defined.

Example webToHex_red : webToHex "#FF0000" = "0xFF0000".
Proof. reflexivity. Qed.

(** Only the first occurrence of the marker is replaced, in both directions. *)
Example webToHex_first_only :
  webToHex "a#b#c" = "a0xb#c" /\ hexToWeb "0x0x" = "#0x" /\
  hexToWeb (webToHex "a#b#c") = "a#b#c".
Proof. repeat split. Qed.

(** Without the second hypothesis the round trip can fail: the 0x already in
    the string is the one [hexToWeb] replaces. *)
Example hexToWeb_webToHex_needs_no_0x :
  hexToWeb (webToHex "0x#") = "#0x".
Proof. reflexivity. Qed.

End ColourRoundTrip.

(* ===================================================================== *)
(** ** Polygons *)

Section Polygon.

(** The loop of [hexObjsToArr] appends the coordinates of every point, in
    order, to the array it started from. *)
Lemma forEach_push (hex : list Point.t) (a : list number) :
  fold_left (fun a point => push (push a (Point.x point)) (Point.y point)) hex a
  = a ++ flat_map coordinates hex.
Proof.
  revert a; induction hex as [|p hex IH]; intros a; simpl.
  - now rewrite app_nil_r.
  - rewrite IH. unfold push. now rewrite <- !app_assoc.
Qed.

Lemma hexObjsToArr_eq (first : Point.t) (hex : list Point.t) :
  hexObjsToArr (first :: hex) =
  Normal (flat_map coordinates (first :: hex) ++ coordinates first).
Proof.
  unfold hexObjsToArr. rewrite forEach_push. unfold push. simpl.
  now rewrite <- !app_assoc.
Qed.

Lemma flat_map_coordinates_length (hex : list Point.t) :
  length (flat_map coordinates hex) = 2 * length hex.
Proof.
  induction hex as [|p hex IH]; simpl; [reflexivity|]. rewrite IH. lia.
Qed.

Lemma flat_map_coordinates_nth (hex : list Point.t) (rest : list number)
    (i : nat) (p : Point.t) :
  nth_error hex i = Some p ->
  nth_error (flat_map coordinates hex ++ rest) (2 * i) = Some (Point.x p) /\
  nth_error (flat_map coordinates hex ++ rest) (2 * i + 1) = Some (Point.y p).
Proof.
  revert i; induction hex as [|q hex IH]; intros i Hi.
  - destruct i; discriminate Hi.
  - destruct i as [|i].
    + inversion Hi; subst. split; reflexivity.
    + replace (2 * S i) with (S (S (2 * i))) by lia.
      replace (S (S (2 * i)) + 1) with (S (S (2 * i + 1))) by lia.
      simpl in Hi |- *. now apply IH.
Qed.

(** C10. On a non-empty array of [n] points, [hexObjsToArr] returns an array
    of [2 * n + 2] numbers: the elements at [2 * i] and [2 * i + 1] are the
    [x] and the [y] of the [i]-th point, and the last two elements are the
    [x] and the [y] of the first point. *)
Theorem hexObjsToArr_closes_polygon (hex : list Point.t) :
  hex <> [] ->
  exists a,
    hexObjsToArr hex = Normal a /\
    length a = 2 * length hex + 2 /\
    (forall i p,
        nth_error hex i = Some p ->
        nth_error a (2 * i) = Some (Point.x p) /\
        nth_error a (2 * i + 1) = Some (Point.y p)) /\
    (forall first,
        nth_error hex 0 = Some first ->
        nth_error a (2 * length hex) = Some (Point.x first) /\
        nth_error a (2 * length hex + 1) = Some (Point.y first)).
Proof.
  destruct hex as [|first hex]; [congruence|]. intros _.
  eexists. split; [apply hexObjsToArr_eq|].
  split; [|split].
  - rewrite length_app, flat_map_coordinates_length. simpl. lia.
  - intros i p Hi. now apply flat_map_coordinates_nth.
  - intros first' Hfirst. inversion Hfirst; subst first'.
    rewrite <- (flat_map_coordinates_length (first :: hex)).
    split.
    + rewrite nth_error_app2 by lia. now rewrite Nat.sub_diag.
    + rewrite nth_error_app2 by lia.
      now replace (length (flat_map coordinates (first :: hex)) + 1
                   - length (flat_map coordinates (first :: hex))) with 1 by lia.
Qed.

Lemma hexObjsToArr_closes_polygon_witness :
  exists a,
    hexObjsToArr [Point.mk 1%float 2%float; Point.mk 3%float 4%float] = Normal a /\
    length a = 6 /\
    (forall i p,
        nth_error [Point.mk 1%float 2%float; Point.mk 3%float 4%float] i = Some p ->
        nth_error a (2 * i) = Some (Point.x p) /\
        nth_error a (2 * i + 1) = Some (Point.y p)) /\
    (forall first,
        Some (Point.mk 1%float 2%float) = Some first ->
        nth_error a 4 = Some (Point.x first) /\
        nth_error a 5 = Some (Point.y first)).
Proof.
  apply (@hexObjsToArr_closes_polygon
           [Point.mk 1%float 2%float; Point.mk 3%float 4%float]).
  discriminate.
Defined.

Example hexObjsToArr_two_points :
  hexObjsToArr [Point.mk 1%float 2%float; Point.mk 3%float 4%float] =
  Normal [1; 2; 3; 4; 1; 2]%float.
Proof. reflexivity. Qed.

(** On the empty array the first point does not exist and the call throws. *)
Example hexObjsToArr_empty : hexObjsToArr [] = Throw TypeError.
Proof. reflexivity. Qed.

End Polygon.

(* ===================================================================== *)
(** * Further properties *)

(** ** Colour strings without the marker, and the other round trip *)

Section ColourMarkers.

Local Open Scope string_scope.
Local Arguments Ascii.eqb : simpl never.

Lemma includes_cons (pat : string) (c : ascii) (s : string) :
  JsString.includes pat (String c s) =
  JsString.startsWith pat (String c s) || JsString.includes pat s.
Proof. reflexivity. Qed.

Lemma replace_cons (pat rep : string) (c : ascii) (s : string) :
  JsString.replace pat rep (String c s) =
  if JsString.startsWith pat (String c s)
  then rep ++ JsString.drop (String.length pat) (String c s)
  else String c (JsString.replace pat rep s).
Proof. reflexivity. Qed.

(** A string in which the pattern does not occur is returned unchanged. *)
Lemma replace_absent (pat rep s : string) :
  JsString.includes pat s = false -> JsString.replace pat rep s = s.
Proof.
  induction s as [|c s IH].
  - destruct pat; [discriminate|reflexivity].
  - rewrite includes_cons, replace_cons. intros Hno.
    apply Bool.orb_false_elim in Hno. destruct Hno as [Hhead Htail].
    rewrite Hhead. f_equal. now apply IH.
Qed.

(** A string that starts with the pattern is the pattern followed by the
    rest. *)
Lemma startsWith_drop (pat s : string) :
  JsString.startsWith pat s = true ->
  s = pat ++ JsString.drop (String.length pat) s.
Proof.
  revert s; induction pat as [|p pat IH]; intros s; [reflexivity|].
  destruct s as [|c s]; [discriminate|]. simpl.
  intros Hs. apply Bool.andb_true_iff in Hs. destruct Hs as [Hc Hs].
  apply Ascii.eqb_eq in Hc. subst c. f_equal. now apply IH.
Qed.

(** X1. A string without the character # is returned unchanged by
    [webToHex]. *)
Theorem webToHex_without_hash (s : string) :
  JsString.includes "#" s = false -> webToHex s = s.
Proof. apply replace_absent. Qed.

Lemma webToHex_without_hash_witness : webToHex "0xFF0000" = "0xFF0000".
Proof. exact (@webToHex_without_hash "0xFF0000" eq_refl). Defined.

(** X2. A string without the two characters 0x is returned unchanged by
    [hexToWeb]. *)
Theorem hexToWeb_without_0x (s : string) :
  JsString.includes "0x" s = false -> hexToWeb s = s.
Proof. apply replace_absent. Qed.

Lemma hexToWeb_without_0x_witness : hexToWeb "#FF0000" = "#FF0000".
Proof. exact (@hexToWeb_without_0x "#FF0000" eq_refl). Defined.

(** X3. On every string that contains the two characters 0x and does not
    contain the character #, [webToHex] undoes [hexToWeb]. *)
Theorem webToHex_hexToWeb (s : string) :
  JsString.includes "0x" s = true ->
  JsString.includes "#" s = false ->
  webToHex (hexToWeb s) = s.
Proof.
  induction s as [|c s IH]; [discriminate|].
  rewrite !includes_cons. intros H0x Hhash.
  apply Bool.orb_false_elim in Hhash. destruct Hhash as [Hc Hhash].
  unfold hexToWeb, webToHex in *. rewrite replace_cons.
  destruct (JsString.startsWith "0x" (String c s)) eqn:Hhead.
  - rewrite (startsWith_drop "0x" (String c s) Hhead) at 2. reflexivity.
  - simpl in H0x. rewrite replace_cons.
    assert (Hc' : JsString.startsWith "#" (String c (JsString.replace "0x" "#" s)) = false).
    { revert Hc. simpl. now rewrite !Bool.andb_true_r. }
    rewrite Hc'. f_equal. now apply IH.
Qed.

Lemma webToHex_hexToWeb_witness : webToHex (hexToWeb "0xFF0000") = "0xFF0000".
Proof. exact (@webToHex_hexToWeb "0xFF0000" eq_refl eq_refl). Defined.

Lemma length_append (s t : string) :
  String.length (s ++ t) = String.length s + String.length t.
Proof. induction s as [|c s IH]; simpl; [reflexivity|now rewrite IH]. Qed.

(** X4. Exactly one marker is replaced: [webToHex] makes a string that
    contains # one character longer, and [hexToWeb] makes a string that
    contains 0x one character shorter. *)
Theorem colour_conversion_lengths (s : string) :
  (JsString.includes "#" s = true ->
   String.length (webToHex s) = S (String.length s)) /\
  (JsString.includes "0x" s = true ->
   S (String.length (hexToWeb s)) = String.length s).
Proof.
  unfold webToHex, hexToWeb. split.
  - induction s as [|c s IH]; [discriminate|].
    rewrite includes_cons, replace_cons.
    destruct (JsString.startsWith "#" (String c s)) eqn:Hhead.
    + intros _. reflexivity.
    + simpl. intros Hin. now rewrite IH.
  - induction s as [|c s IH]; [discriminate|].
    rewrite includes_cons, replace_cons.
    destruct (JsString.startsWith "0x" (String c s)) eqn:Hhead.
    + intros _. rewrite (startsWith_drop "0x" (String c s) Hhead) at 2.
      now rewrite !length_append.
    + simpl. intros Hin. now rewrite IH.
Qed.

Lemma colour_conversion_lengths_witness :
  String.length (webToHex "#FF0000") = 8 /\
  S (String.length (hexToWeb "0xFF0000")) = 8.
Proof.
  split.
  - exact (proj1 (colour_conversion_lengths "#FF0000") eq_refl).
  - exact (proj2 (colour_conversion_lengths "0xFF0000") eq_refl).
Defined.

End ColourMarkers.

(** ** Polygons: the empty array *)

(** X5. [hexObjsToArr] throws exactly on the empty array, and what it throws
    is a [TypeError]. *)
Theorem hexObjsToArr_throws_iff_empty (hex : list Point.t) (e : Exception) :
  hexObjsToArr hex = Throw e <-> hex = [] /\ e = TypeError.
Proof.
  destruct hex as [|first hex].
  - split.
    + intros Hthrow. inversion Hthrow. now split.
    + intros [_ He]. now subst e.
  - rewrite hexObjsToArr_eq. split; [discriminate|].
    intros [Hnil _]. discriminate Hnil.
Qed.

(** ** [readPixel]: textures that are missing or disposed of *)

(** X6. When the texture sampled has no base texture, reading its resolution
    throws a [TypeError]: no [bind], [readPixels] or [destroy] call is made,
    and a texture generated for the call stays live. *)
Theorem readPixel_disposed_texture
    (H : Type) (renderer : Renderer H) (target : Target) (x y : option number)
    (h : H) (rt : RenderTexture) :
  sampled renderer target h = Some rt ->
  baseTexture rt = None ->
  outcome (readPixel renderer target x y h) = Throw TypeError /\
  filter (fun c => is_bind c || is_read c || is_destroy c)
         (calls (journal (readPixel renderer target x y h))) = [] /\
  forall r, live (effect (journal (readPixel renderer target x y h)) r) =
            if instanceof_RenderTexture target then live r else uid rt :: live r.
Proof.
  unfold sampled, readPixel, acquire, outcome, journal, bind, perform, ret, throw.
  destruct target as [rt'|id]; simpl.
  - intros Hs Hbase. inversion Hs; subst rt'. rewrite Hbase. simpl.
    repeat split.
  - destruct (generateTexture renderer (DisplayObject id) h) as [[o|e] h0];
      simpl; intros Hs Hbase; [subst o | discriminate Hs].
    rewrite Hbase. simpl. repeat split.
Qed.

Lemma readPixel_disposed_texture_witness :
  let run := readPixel disposed_engine (DisplayObject 7) None None 0 in
  outcome run = Throw TypeError /\
  filter (fun c => is_bind c || is_read c || is_destroy c) (calls (journal run)) = [] /\
  forall r, live (effect (journal run) r) = 100 :: live r.
Proof.
  exact (@readPixel_disposed_texture nat disposed_engine (DisplayObject 7)
           None None 0 disposed_texture eq_refl eq_refl).
Defined.


Lemma readPixel_returns_witness :
  outcome (readPixel (steady_engine 2%float [(0, 300%Z)]) (DisplayObject 7)
                     (Some 5%float) (Some 10%float) 0)
  = Normal [44; 0; 0; 0]%Z.
Proof.
  exact (@readPixel_returns nat (steady_engine 2%float [(0, 300%Z)])
           (DisplayObject 7) (Some 5%float) (Some 10%float) 0 1 1 1
           (fresh_texture 0 2%float) {| resolution := 2%float |} true
           [{| ev_call := GenerateTexture (DisplayObject 7);
               ev_answer := ReturnedTexture (Some (fresh_texture 0 2%float)) |}]
           [(0, 300%Z)]
           eq_refl eq_refl eq_refl eq_refl
           (fun _ => ex_intro _ 1 eq_refl)).
Defined.

(* ===================================================================== *)
(** ** Percentages *)

Section Percentages.

(** A mantissa has as many bits as [digits2_pos] says. *)
Lemma digits2_pos_bound (m : positive) :
  (Z.pos m < 2 ^ Z.pos (SpecFloat.digits2_pos m))%Z.
Proof.
  induction m as [m IH|m IH|]; simpl SpecFloat.digits2_pos.
  - rewrite Pos2Z.inj_succ, Z.pow_succ_r by lia. lia.
  - rewrite Pos2Z.inj_succ, Z.pow_succ_r by lia. lia.
  - reflexivity.
Qed.

(** The mantissa of a finite binary64 number is below [2^53]. *)
Lemma Prim2SF_mantissa_bound (f : float) (s : bool) (m : positive) (e : Z) :
  Prim2SF f = S754_finite s m e -> (Z.pos m < 2 ^ 53)%Z.
Proof.
  intros Hf. pose proof (Prim2SF_valid f) as Hvalid. rewrite Hf in Hvalid.
  unfold SpecFloat.valid_binary, SpecFloat.bounded in Hvalid.
  apply Bool.andb_true_iff in Hvalid. destruct Hvalid as [Hcanon _].
  unfold SpecFloat.canonical_mantissa, SpecFloat.fexp in Hcanon.
  apply Z.eqb_eq in Hcanon.
  assert (Hdigits : (Z.pos (SpecFloat.digits2_pos m) <= 53)%Z).
  { unfold FloatOps.prec in Hcanon. lia. }
  pose proof (digits2_pos_bound m) as Hm.
  assert ((2 ^ Z.pos (SpecFloat.digits2_pos m) <= 2 ^ 53)%Z)
    by (apply Z.pow_le_mono_r; lia).
  lia.
Qed.

(** [Math.ceil] of a number that is positive and at most 100 is one of the
    integers 1 to 100. *)
Lemma Math_ceil_percent (f : float) :
  PrimFloat.ltb 0 f = true ->
  PrimFloat.leb f 100 = true ->
  exists k, (1 <= k <= 100)%Z /\ Math_ceil f = Number_of_Z k.
Proof.
  rewrite ltb_spec, leb_spec. unfold Math_ceil.
  change (Prim2SF 0) with (S754_zero false).
  change (Prim2SF 100) with (S754_finite false 7036874417766400 (-46)).
  destruct (Prim2SF f) as [s|s| |s m e] eqn:Hf;
    try (destruct s; discriminate); try discriminate.
  destruct s; [discriminate|]. intros _.
  pose proof (Prim2SF_mantissa_bound f Hf) as Hm.
  unfold SFleb, SFcompare.
  destruct (Z.compare e (-46)) eqn:He; [ | | intros Hle; discriminate Hle].
  - apply Z.compare_eq in He. subst e. intros Hle.
    assert (Hcmp : Pos.compare_cont Eq m 7036874417766400 <> Gt)
      by (intros Hgt; rewrite Hgt in Hle; discriminate Hle).
    assert (Hm' : (Z.pos m <= 7036874417766400)%Z) by exact Hcmp.
    assert (H46 : (2 ^ (- -46) = 70368744177664)%Z) by (vm_compute; reflexivity).
    rewrite !H46.
    assert (Hneg : (0 <=? -46)%Z = false) by reflexivity.
    rewrite Hneg.
    pose proof (Z.div_mod (Z.pos m) 70368744177664 ltac:(lia)) as Hdiv.
    pose proof (Z.mod_pos_bound (Z.pos m) 70368744177664 ltac:(lia)) as Hmod.
    pose proof (Pos2Z.is_pos m) as Hpos.
    eexists. split; [|reflexivity].
    clear Hf Hm Hle Hcmp H46 Hneg.
    generalize dependent (Z.pos m / 70368744177664)%Z. intros q.
    generalize dependent (Z.pos m mod 70368744177664)%Z. intros r Hdiv Hmod.
    generalize dependent (Z.pos m). intros z Hz Hpos Hz'.
    clear f m.
    destruct (Z.eqb_spec r 0); lia.
  - assert (He' : (e < -46)%Z) by exact He. clear He. intros _.
    assert (Hneg : (0 <=? e)%Z = false) by (apply Z.leb_gt; lia).
    rewrite Hneg.
    assert (Hd : (2 ^ 47 <= 2 ^ (- e))%Z) by (apply Z.pow_le_mono_r; lia).
    assert (H47 : (2 ^ 47 = 140737488355328)%Z) by (vm_compute; reflexivity).
    assert (H53 : (2 ^ 53 = 9007199254740992)%Z) by (vm_compute; reflexivity).
    rewrite H47 in Hd. rewrite H53 in Hm.
    pose proof (Pos2Z.is_pos m) as Hpos.
    generalize dependent (Z.pos m). intros z Hz Hpos.
    generalize dependent (2 ^ (- e))%Z. intros d Hd.
    pose proof (Z.div_mod z d ltac:(lia)) as Hdiv.
    pose proof (Z.mod_pos_bound z d ltac:(lia)) as Hmod.
    eexists. split; [|reflexivity].
    clear Hf Hneg He' H47 H53.
    generalize dependent (z / d)%Z. intros q.
    generalize dependent (z mod d)%Z. intros r Hdiv Hmod.
    destruct (Z.eqb_spec r 0); nia.
Qed.

(** A block check covers every colour of the block. *)
Lemma all_in_block_spec (test : Uint63.int -> bool) (k : nat) (lo : Uint63.int) :
  (Uint63.to_Z lo + 2 ^ Z.of_nat k <= 2 ^ 62)%Z ->
  all_in_block test k lo = true ->
  forall n, (Uint63.to_Z lo <= n < Uint63.to_Z lo + 2 ^ Z.of_nat k)%Z ->
            test (Uint63.of_Z n) = true.
Proof.
  assert (HwB : Uint63.wB = (2 * 2 ^ 62)%Z) by (vm_compute; reflexivity).
  assert (H62 : (0 < 2 ^ 62)%Z) by (vm_compute; reflexivity).
  assert (Hone : Uint63.to_Z (Uint63.of_Z 1) = 1%Z) by (vm_compute; reflexivity).
  revert lo; induction k as [|k IH]; intros lo Hbound Hall n Hn.
  - simpl in Hn. replace n with (Uint63.to_Z lo) by lia.
    rewrite Uint63.of_to_Z. exact Hall.
  - simpl all_in_block in Hall. apply Bool.andb_true_iff in Hall.
    destruct Hall as [Hlow Hhigh].
    rewrite Nat2Z.inj_succ, Z.pow_succ_r in Hn, Hbound by lia.
    pose proof (Uint63.to_Z_bounded lo) as Hlo.
    assert (Hpow : (0 < 2 ^ Z.of_nat k)%Z) by (apply Z.pow_pos_nonneg; lia).
    assert (Hk : (Z.of_nat k < 62)%Z).
    { apply (Z.pow_lt_mono_r_iff 2); lia. }
    assert (Hshift : Uint63.to_Z (Uint63.lsl (Uint63.of_Z 1) (Uint63.of_Z (Z.of_nat k)))
                     = (2 ^ Z.of_nat k)%Z).
    { rewrite Uint63.lsl_spec, Hone, Uint63.of_Z_spec.
      rewrite (Z.mod_small (Z.of_nat k)) by lia.
      rewrite Z.mul_1_l. apply Z.mod_small. lia. }
    assert (Hnext : Uint63.to_Z
                      (Uint63.add lo (Uint63.lsl (Uint63.of_Z 1) (Uint63.of_Z (Z.of_nat k))))
                    = (Uint63.to_Z lo + 2 ^ Z.of_nat k)%Z).
    { rewrite Uint63.add_spec, Hshift. apply Z.mod_small. lia. }
    destruct (Z.lt_ge_cases n (Uint63.to_Z lo + 2 ^ Z.of_nat k)) as [Hlt|Hge].
    + apply (IH lo); [lia | exact Hlow | lia].
    + apply (IH _ ltac:(rewrite Hnext; lia) Hhigh). rewrite Hnext. lia.
Qed.

(** Every 24-bit colour, brought to the scale 0..100 in binary64 arithmetic,
    lands in the interval from 0 (excluded, except for black) to 100. *)
Lemma all_colours_in_range :
  all_in_block percent_in_range 24 (Uint63.of_Z 0) = true.
Proof. vm_cast_no_check (eq_refl true). Qed.

(** X7. On every 24-bit colour [hexToPercent] returns an integer from 0 to
    100, and it returns 0 only for black. *)
Theorem hexToPercent_range (n : Z) :
  (0 <= n <= 0xFFFFFF)%Z ->
  exists k, (0 <= k <= 100)%Z /\
            hexToPercent (Number_of_Z n) = Number_of_Z k /\
            (k = 0%Z <-> n = 0%Z).
Proof.
  intros Hn.
  assert (H24 : (2 ^ Z.of_nat 24 = 16777216)%Z) by (vm_compute; reflexivity).
  assert (H62 : (2 ^ 62 = 4611686018427387904)%Z) by (vm_compute; reflexivity).
  assert (HwB : Uint63.wB = 9223372036854775808%Z) by (vm_compute; reflexivity).
  assert (Hzero : Uint63.to_Z (Uint63.of_Z 0) = 0%Z) by (vm_compute; reflexivity).
  assert (Hrange : percent_in_range (Uint63.of_Z n) = true).
  { apply (@all_in_block_spec percent_in_range 24 (Uint63.of_Z 0));
      rewrite ?Hzero, ?H24, ?H62;
      [lia | exact all_colours_in_range | lia]. }
  unfold percent_in_range in Hrange.
  destruct (Z.eqb_spec n 0) as [Hblack|Hnonzero].
  - subst n. exists 0%Z. split; [lia|]. split; [vm_compute; reflexivity|].
    split; reflexivity.
  - apply Bool.orb_true_iff in Hrange. destruct Hrange as [Hblack|Hrange].
    + apply Uint63.eqb_spec in Hblack.
      apply (f_equal Uint63.to_Z) in Hblack.
      rewrite Hzero, Uint63.of_Z_spec, HwB, Z.mod_small in Hblack by lia.
      contradiction.
    + apply Bool.andb_true_iff in Hrange. destruct Hrange as [Hpos Hle].
      destruct (@Math_ceil_percent _ Hpos Hle) as (k & Hk & Hceil).
      exists k. split; [lia|]. split; [exact Hceil|]. split; lia.
Qed.

Lemma hexToPercent_range_witness :
  exists k, (0 <= k <= 100)%Z /\
            hexToPercent (Number_of_Z 0x808080) = Number_of_Z k /\
            (k = 0%Z <-> 0x808080%Z = 0%Z).
Proof.
  apply (@hexToPercent_range 0x808080). split; discriminate.
Defined.

Example hexToPercent_endpoints :
  hexToPercent 0%float = 0%float /\ hexToPercent 1%float = 1%float /\
  hexToPercent 0x808080%float = 51%float /\
  hexToPercent 0xFFFFFF%float = 100%float.
Proof. repeat split; vm_compute; reflexivity. Qed.

(** A property checked on 0, 1, ..., 100 holds of every percentage. *)
Lemma up_to_100 (test : nat -> bool) :
  forallb test (seq 0 101) = true ->
  forall p, p <= 100 -> test p = true.
Proof.
  intros Hall p Hp. rewrite forallb_forall in Hall.
  apply Hall. apply in_seq. lia.
Qed.

(** X8. For every whole percentage [p] from 0 to 100, [percentToHex] returns
    [0x] followed by three times the same two base-16 digits: those of the
    byte [ceil(255 * p / 100)].  Binary64 rounding of [p * 2.55] never moves
    the byte away from the exact value. *)
Theorem percentToHex_grey (p : nat) :
  p <= 100 ->
  (0 <= grey_channel p <= 255)%Z /\
  percentToHex (Number_of_Z (Z.of_nat p)) =
    ("0x" ++ two_hex_digits (grey_channel p)
          ++ two_hex_digits (grey_channel p)
          ++ two_hex_digits (grey_channel p))%string.
Proof.
  intros Hp. split.
  - unfold grey_channel.
    pose proof (Z.div_mod (255 * Z.of_nat p + 99) 100 ltac:(lia)).
    pose proof (Z.mod_pos_bound (255 * Z.of_nat p + 99) 100 ltac:(lia)).
    lia.
  - apply String.eqb_eq.
    apply (@up_to_100
             (fun p => String.eqb
                (percentToHex (Number_of_Z (Z.of_nat p)))
                ("0x" ++ two_hex_digits (grey_channel p)
                      ++ two_hex_digits (grey_channel p)
                      ++ two_hex_digits (grey_channel p))%string));
      [vm_compute; reflexivity | exact Hp].
Qed.

Lemma percentToHex_grey_witness :
  (0 <= 128 <= 255)%Z /\ percentToHex 50%float = "0x808080"%string.
Proof.
  apply (@percentToHex_grey 50). repeat constructor.
Defined.

(** Outside 0..100 the result is not a 24-bit colour. *)
Example percentToHex_out_of_range :
  percentToHex 101%float = "0x102102102"%string /\
  percentToHex (-1)%float = "0x-2-2-2"%string /\
  percentToHex nan = "0xNaNNaNNaN"%string.
Proof. repeat split; vm_compute; reflexivity. Qed.

(** X9. [hexToPercent] does not undo [percentToHex].  For every whole
    percentage [p] from 0 to 100, the string [percentToHex] returns is the
    base-16 literal of the grey [ceil(255 * p / 100) * 0x010101], and
    [hexToPercent] of that colour is [p] when [p] is a multiple of 20 and
    [p + 1] otherwise. *)
Theorem hexToPercent_percentToHex (p : nat) :
  p <= 100 ->
  hexLiteral_value (percentToHex (Number_of_Z (Z.of_nat p)))
    = Some (grey_channel p * 0x010101)%Z /\
  hexToPercent (Number_of_Z (grey_channel p * 0x010101))
    = Number_of_Z (Z.of_nat (if Nat.eqb (p mod 20) 0 then p else S p)).
Proof.
  intros Hp.
  pose (test := fun p =>
    match hexLiteral_value (percentToHex (Number_of_Z (Z.of_nat p))) with
    | Some v => (v =? grey_channel p * 0x010101)%Z
    | None => false
    end &&
    PrimFloat.Leibniz.eqb
      (hexToPercent (Number_of_Z (grey_channel p * 0x010101)))
      (Number_of_Z (Z.of_nat (if Nat.eqb (p mod 20) 0 then p else S p)))).
  assert (Htest : test p = true)
    by (apply (@up_to_100 test); [vm_compute; reflexivity | exact Hp]).
  unfold test in Htest. apply Bool.andb_true_iff in Htest.
  destruct Htest as [Hliteral Hpercent]. split.
  - destruct (hexLiteral_value (percentToHex (Number_of_Z (Z.of_nat p))))
      as [v|]; [|discriminate Hliteral].
    apply Z.eqb_eq in Hliteral. now subst v.
  - now apply FloatAxioms.Leibniz.eqb_spec.
Qed.

Lemma hexToPercent_percentToHex_witness :
  hexLiteral_value (percentToHex 1%float) = Some 0x030303%Z /\
  hexToPercent 0x030303%float = 2%float.
Proof.
  apply (@hexToPercent_percentToHex 1). repeat constructor.
Defined.

End Percentages.

(* ===================================================================== *)
(** ** Hotkeys *)

Section HotkeyProperties.

Import Hotkeys.
Local Open Scope string_scope.

Lemma existsb_eqb_In (c : string) (l : list string) :
  existsb (String.eqb c) l = true <-> In c l.
Proof.
  rewrite existsb_exists. split.
  - intros (d & Hd & Heq). apply String.eqb_eq in Heq. now subst d.
  - intros Hc. exists c. split; [assumption|apply String.eqb_refl].
Qed.

Lemma hasClass_single (el : Element) (c : string) :
  hasClass [el] c = existsb (String.eqb c) (classes el).
Proof. unfold hasClass. cbn [existsb]. apply Bool.orb_false_r. Qed.

(** [isOnCanvas] throws exactly when the event has no path. *)
Lemma isOnCanvas_throws (event : KeyboardEvent) (e : Exception) :
  isOnCanvas event = Throw e <-> e = TypeError /\ path event = None.
Proof.
  unfold isOnCanvas. destruct (path event) as [elements|].
  - split; [discriminate|]. intros [_ H]. discriminate H.
  - split.
    + intros Hthrow. inversion Hthrow. now split.
    + intros [He _]. now subst e.
Qed.

(** X10. [isOnCanvas] returns [true] exactly when the innermost element of
    the event path carries both classes [vtt] and [game].  On an empty path
    it returns [false]; it returns [false] exactly when the path is empty or
    its innermost element lacks one of the two classes; and it throws, a
    [TypeError], exactly when the event has no path. *)
Theorem isOnCanvas_characterised (event : KeyboardEvent) :
  (isOnCanvas event = Normal true <->
   exists el rest,
     path event = Some (el :: rest) /\
     In "vtt" (classes el) /\ In "game" (classes el)) /\
  (path event = Some [] -> isOnCanvas event = Normal false) /\
  (isOnCanvas event = Normal false <->
   path event = Some [] \/
   exists el rest,
     path event = Some (el :: rest) /\
     (~ In "vtt" (classes el) \/ ~ In "game" (classes el))) /\
  (forall e, isOnCanvas event = Throw e <-> e = TypeError /\ path event = None).
Proof.
  split; [|split; [|split; [|apply isOnCanvas_throws]]].
  - unfold isOnCanvas.
    destruct (path event) as [[|el rest]|];
      cbn [nth_error wrap for_allowedClasses].
    + change (hasClass [] "vtt") with false. cbn [negb].
      split; [discriminate|]. intros (el & rest & Hpath & _). discriminate Hpath.
    + rewrite !hasClass_single.
      destruct (existsb (String.eqb "vtt") (classes el)) eqn:Hvtt; cbn [negb].
      * destruct (existsb (String.eqb "game") (classes el)) eqn:Hgame; cbn [negb].
        -- split; [|reflexivity]. intros _. exists el, rest.
           repeat split; now apply existsb_eqb_In.
        -- split; [discriminate|]. intros (el' & rest' & Hpath & _ & Hin).
           inversion Hpath; subst el' rest'.
           apply existsb_eqb_In in Hin. congruence.
      * split; [discriminate|]. intros (el' & rest' & Hpath & Hin & _).
        inversion Hpath; subst el' rest'.
        apply existsb_eqb_In in Hin. congruence.
    + split; [discriminate|]. intros (el & rest & Hpath & _). discriminate Hpath.
  - unfold isOnCanvas. intros Hpath. rewrite Hpath. reflexivity.
  - unfold isOnCanvas.
    destruct (path event) as [[|el rest]|];
      cbn [nth_error wrap for_allowedClasses].
    + change (hasClass [] "vtt") with false. cbn [negb].
      split; [now left | reflexivity].
    + rewrite !hasClass_single.
      destruct (existsb (String.eqb "vtt") (classes el)) eqn:Hvtt; cbn [negb].
      * destruct (existsb (String.eqb "game") (classes el)) eqn:Hgame; cbn [negb].
        -- split; [discriminate|].
           intros [Hpath|(el' & rest' & Hpath & Hlacks)]; [discriminate Hpath|].
           inversion Hpath; subst el' rest'.
           apply existsb_eqb_In in Hvtt. apply existsb_eqb_In in Hgame.
           destruct Hlacks as [Hno|Hno]; contradiction.
        -- split; [|reflexivity]. intros _. right. exists el, rest.
           split; [reflexivity|]. right. intros Hin.
           apply existsb_eqb_In in Hin. congruence.
      * split; [|reflexivity]. intros _. right. exists el, rest.
        split; [reflexivity|]. left. intros Hin.
        apply existsb_eqb_In in Hin. congruence.
    + split; [discriminate|].
      intros [Hpath|(el & rest & Hpath & _)]; discriminate Hpath.
Qed.

Lemma isOnCanvas_characterised_witness :
  isOnCanvas ctrl_s_empty_path = Normal false /\
  isOnCanvas ctrl_s_on_canvas = Normal true.
Proof.
  split.
  - exact (proj1 (proj2 (isOnCanvas_characterised ctrl_s_empty_path)) eq_refl).
  - apply (proj1 (isOnCanvas_characterised ctrl_s_on_canvas)).
    exists canvas_element, []. split; [reflexivity|]. split; simpl; auto.
Defined.

(** The conditions under which the control listener acts. *)
Lemma controlToggle_conditions (page : Page) (event : KeyboardEvent)
    (a : Action) (acts : list Action) :
  controlToggleListener page event = Normal (a :: acts) ->
  enableHotkeys page = true /\ key event = "s" /\ ctrlKey event = true /\
  isOnCanvas event = Normal true.
Proof.
  unfold controlToggleListener, areHotkeysEnabled, toggleControls.
  destruct (enableHotkeys page); simpl; [|discriminate].
  destruct (String.eqb_spec (key event) "s") as [Hkey|]; simpl; [|discriminate].
  destruct (ctrlKey event); simpl; [|discriminate].
  destruct (isOnCanvas event) as [[|]|e]; try discriminate.
  intros _. now repeat split.
Qed.



(** The conditions under which the opacity listener acts. *)
Lemma opacityToggle_conditions (page : Page) (event : KeyboardEvent)
    (a : Action) (acts : list Action) :
  opacityToggleListener page event = Normal (a :: acts) ->
  enableHotkeys page = true /\ key event = "t" /\
  isOnCanvas event = Normal true /\ activeControl page = "simplefog".
Proof.
  unfold opacityToggleListener, areHotkeysEnabled, toggleOpacity,
    isActiveControl, getActiveControlName.
  destruct (enableHotkeys page); simpl; [|discriminate].
  destruct (String.eqb_spec (key event) "t") as [Hkey|]; simpl; [|discriminate].
  destruct (isOnCanvas event) as [[|]|e]; try discriminate.
  destruct (String.eqb_spec (activeControl page) "simplefog") as [Hactive|];
    simpl; [|discriminate].
  intros _. now repeat split.
Qed.



(** X13. A listener throws only a [TypeError], and exactly when hotkeys are
    enabled, its key combination matches and the event has no path: with
    hotkeys disabled or another key, a missing [event.path] is never
    touched. *)
Theorem listeners_throw_iff (page : Page) (event : KeyboardEvent) (e : Exception) :
  (controlToggleListener page event = Throw e <->
   e = TypeError /\ enableHotkeys page = true /\ key event = "s" /\
   ctrlKey event = true /\ path event = None) /\
  (opacityToggleListener page event = Throw e <->
   e = TypeError /\ enableHotkeys page = true /\ key event = "t" /\
   path event = None).
Proof.
  pose proof (isOnCanvas_throws event e) as Hcanvas.
  unfold controlToggleListener, opacityToggleListener, areHotkeysEnabled,
    toggleControls, toggleOpacity.
  split.
  - destruct (enableHotkeys page); cbn [negb];
      [|split; [discriminate|intros (_ & H & _); discriminate H]].
    destruct (String.eqb_spec (key event) "s") as [Hkey|Hkey]; cbn [andb negb];
      [|split; [discriminate|intros (_ & _ & H & _); contradiction]].
    destruct (ctrlKey event); cbn [negb];
      [|split; [discriminate|intros (_ & _ & _ & H & _); discriminate H]].
    destruct (isOnCanvas event) as [[|]|e'].
    + split; [discriminate|]. intros (He & _ & _ & _ & Hpath).
      discriminate (proj2 Hcanvas (conj He Hpath)).
    + split; [discriminate|]. intros (He & _ & _ & _ & Hpath).
      discriminate (proj2 Hcanvas (conj He Hpath)).
    + split.
      * intros Hthrow. inversion Hthrow; subst e'.
        destruct (proj1 Hcanvas eq_refl) as [He Hpath]. now repeat split.
      * intros (He & _ & _ & _ & Hpath).
        pose proof (proj2 Hcanvas (conj He Hpath)) as Hsame.
        inversion Hsame. reflexivity.
  - destruct (enableHotkeys page); cbn [negb];
      [|split; [discriminate|intros (_ & H & _); discriminate H]].
    destruct (String.eqb_spec (key event) "t") as [Hkey|Hkey]; cbn [negb];
      [|split; [discriminate|intros (_ & _ & H & _); contradiction]].
    destruct (isOnCanvas event) as [[|]|e'].
    + split;
        [|intros (He & _ & _ & Hpath);
          discriminate (proj2 Hcanvas (conj He Hpath))].
      destruct (negb (isActiveControl page)); discriminate.
    + split; [discriminate|]. intros (He & _ & _ & Hpath).
      discriminate (proj2 Hcanvas (conj He Hpath)).
    + split.
      * intros Hthrow. inversion Hthrow; subst e'.
        destruct (proj1 Hcanvas eq_refl) as [He Hpath]. now repeat split.
      * intros (He & _ & _ & Hpath).
        pose proof (proj2 Hcanvas (conj He Hpath)) as Hsame.
        inversion Hsame. reflexivity.
Qed.

Lemma listeners_throw_iff_witness :
  controlToggleListener (page_with "walls" "100") ctrl_s_without_path
  = Throw TypeError.
Proof.
  exact (proj2 (proj1 (listeners_throw_iff (page_with "walls" "100")
                         ctrl_s_without_path TypeError))
               (conj eq_refl (conj eq_refl (conj eq_refl (conj eq_refl eq_refl))))).
Defined.

(** X14. No key event makes both listeners act. *)
Theorem listeners_exclusive (page : Page) (event : KeyboardEvent)
    (control opacity : list Action) :
  controlToggleListener page event = Normal control ->
  opacityToggleListener page event = Normal opacity ->
  control = [] \/ opacity = [].
Proof.
  intros Hcontrol Hopacity.
  destruct control as [|a control]; [now left|].
  destruct opacity as [|b opacity]; [now right|].
  apply controlToggle_conditions in Hcontrol.
  apply opacityToggle_conditions in Hopacity.
  destruct Hcontrol as (_ & Hs & _). destruct Hopacity as (_ & Ht & _).
  rewrite Hs in Ht. discriminate Ht.
Qed.

Lemma listeners_exclusive_witness :
  [ Click "li.scene-control[data-control=token]";
    ClickAfter 500 "ol.sub-controls.active li.control-tool[data-tool=select]" ] = []
  \/ @nil Action = [].
Proof.
  exact (@listeners_exclusive (page_with "simplefog" "100") ctrl_s_on_canvas
           _ _ eq_refl eq_refl).
Defined.

End HotkeyProperties.
